(** * ublox_gps: the command / poll / read layer of [Gps] (gps.h)

    A shallow embedding of the inline and template members of class [Gps]
    (ublox_gps/include/ublox_gps/gps.h): [isInitialized], [isConfigured],
    [isOpen], [initialize], [subscribe], [poll], [read] and [configure].

    The members of the class are the fields of the record [Gps].  The
    collaborators that gps.h only declares or includes (the transport worker,
    the codec's writer, the callback handlers, the raw-frame dispatcher and the
    acknowledgment wait) are described at their boundary, each under a comment
    that says so.  Calls on the collaborators are recorded, in program order,
    in a trace, and blocking waits consume ticks of a discrete clock during
    which the inbound traffic of the I/O thread is dispatched. *)

From stdpp Require Import base option list gmap.
From Stdlib Require Import ZArith Lia.

Local Open Scope Z_scope.

(** ** Data model *)

(** Message identity: [std::pair<uint8_t, uint8_t>], (class id, message id);
    the key type of [Callbacks]. *)
Definition Key : Type := (Z * Z)%type.

(** [T::CLASS_ID], [T::MESSAGE_ID] and the serializer of a message type [T]:
    what the templates of gps.h require of their type argument.  The payload is
    a list of bytes. *)
Class UbloxMessage (T : Type) := {
  CLASS_ID : Z;
  MESSAGE_ID : Z;
  serialize : T → list Z;
  deserialize : list Z → T
}.
Arguments CLASS_ID T {_}.
Arguments MESSAGE_ID T {_}.

(** [enum { WAIT, ACK, NACK } acknowledge_]. *)
Inductive Acknowledge := WAIT | ACK | NACK.

Global Instance Acknowledge_eq_dec : EqDecision Acknowledge.
Proof. solve_decision. Defined.

(** Modelled from the spec: the transport worker ([Worker] of async_worker.h,
    which gps.h includes but which is not part of this file), seen through its
    boundary: [isOpen() -> bool] and a fire-and-forget [send(bytes)].  The
    bytes handed to [send] are recorded in the trace of the world. *)
Record Worker := mkWorker { w_isOpen : bool }.

(** Modelled from the spec: a callback handler ([CallbackHandler_<T>] of
    callback.h).  A persistent handler delivers every received instance to the
    sink it was created with (the instances are accumulated here); a one-shot
    handler buffers exactly the first matching instance. *)
Inductive Handler :=
| Persistent (sink : nat) (delivered : list (list Z))
| OneShot (message_ : option (list Z)).

(** A decoded inbound message: identity and payload, as the codec extracts it
    from the bytes the transport received. *)
Record Frame := mkFrame { fr_key : Key; fr_payload : list Z }.

(** [Callbacks]: a multimap from message identity to handlers.  Every node of
    the multimap is named by the iterator that [insert] returned for it, which
    stays valid until that node is erased: the registry is a finite map from
    iterators to (identity, handler) pairs. *)
Abbreviation Callbacks := (gmap nat (Key * Handler)).

(** The data members of [class Gps]. *)
Record Gps := mkGps {
  worker_ : option Worker;      (* boost::shared_ptr<Worker>, None when null *)
  configured_ : bool;
  acknowledge_ : Acknowledge;
  baudrate_ : Z;
  uart_in_ : Z;
  uart_out_ : Z;
  callbacks_ : Callbacks
}.

(** What a call on a collaborator looks like from outside, in program order. *)
Inductive Event :=
| EvAckReset                              (* acknowledge_ = WAIT *)
| EvSend (bytes : list Z)                 (* worker_->send(data, size) *)
| EvInsert (it : nat) (key : Key)         (* callbacks_.insert(...) *)
| EvWait (it : nat) (timeout : nat)       (* handler->wait(timeout) *)
| EvWaitAck (timeout : nat)               (* waitForAcknowledge(timeout) *)
| EvErase (it : nat).                     (* callbacks_.erase(it) *)

(** The driver together with its surroundings: the allocator of multimap
    nodes, the clock, the traffic that will arrive from the device (one batch
    of decoded frames per tick) and the trace of the calls made so far. *)
Record World := mkWorld {
  gps : Gps;
  next_node : nat;
  now : nat;
  inbound : list (list Frame);
  trace : list Event
}.

(** ** Constants of the class *)

Definition kSetBaudrateSleepMs : Z := 500.
Definition kWriterSize : nat := 1024.

(** [kDefaultAckTimeout = 1.0] seconds. *)
Definition kDefaultAckTimeout : nat := 1.

(** Modelled from the spec: [default_timeout_], declared in gps.h and defined
    elsewhere: the default timeout, [kDefaultAckTimeout] seconds, in ticks of
    one millisecond. *)
Definition default_timeout_ : nat := (kDefaultAckTimeout * 1000)%nat.

(** ** The codec boundary *)

(** Modelled from the spec: the codec ([ublox::Writer] and the message headers
    of ublox_msgs, not part of this file).
    [Writer_write_raw size class_id message_id payload] is
    [serialize(message, outBuffer) -> bytesWritten | failure] on a buffer of
    [size] bytes; [ACK_ID] and [NACK_ID] are the two reserved identities;
    [RateCmd] is the rate-configuration message. *)
Class Codec := {
  Writer_write_raw : nat → Z → Z → list Z → option (list Z);
  ACK_ID : Key;
  NACK_ID : Key;
  RateCmd : Type;
  RateCmd_msg :: UbloxMessage RateCmd;
  mkRateCmd : Z → Z → Z → RateCmd
}.

(** [writer.write(message)]: the typed message is written under its own
    identity. *)
Definition Writer_write `{Codec} {T} `{UbloxMessage T}
    (size : nat) (message : T) : option (list Z) :=
  Writer_write_raw size (CLASS_ID T) (MESSAGE_ID T) (serialize message).

(** ** State passing *)

Definition M (A : Type) : Type := World → A * World.

Global Instance M_ret : MRet M := λ A x w, (x, w).
Global Instance M_bind : MBind M :=
  λ A B f m w, let '(a, w') := m w in f a w'.

Definition get_gps : M Gps := λ w, (gps w, w).

Definition put_gps (g : Gps) : M unit :=
  λ w, (tt, mkWorld g (next_node w) (now w) (inbound w) (trace w)).

Definition emit (e : Event) : M unit :=
  λ w, (tt, mkWorld (gps w) (next_node w) (now w) (inbound w) (trace w ++ [e])).

Definition set_acknowledge (a : Acknowledge) (g : Gps) : Gps :=
  mkGps (worker_ g) (configured_ g) a
        (baudrate_ g) (uart_in_ g) (uart_out_ g) (callbacks_ g).

Definition set_callbacks (c : Callbacks) (g : Gps) : Gps :=
  mkGps (worker_ g) (configured_ g) (acknowledge_ g)
        (baudrate_ g) (uart_in_ g) (uart_out_ g) c.

(** ** Inline members *)

(** [bool isInitialized() const { return worker_ != 0; }] *)
Definition isInitialized (g : Gps) : bool :=
  match worker_ g with Some _ => true | None => false end.

(** [bool isConfigured() const { return isInitialized() && configured_; }] *)
Definition isConfigured (g : Gps) : bool :=
  isInitialized g && configured_ g.

(** [bool isOpen() const { return worker_->isOpen(); }]: the worker is
    dereferenced without a check; [None] is the null dereference. *)
Definition isOpen (g : Gps) : option bool :=
  match worker_ g with Some w => Some (w_isOpen w) | None => None end.

(** ** The registry *)

(** [callbacks_.insert(std::make_pair(key, handler))]: a new node, named by a
    fresh iterator, which is returned. *)
Definition callbacks_insert (key : Key) (h : Handler) : M nat :=
  λ w, let it := next_node w in
       (it, mkWorld (set_callbacks (<[it := (key, h)]> (callbacks_ (gps w))) (gps w))
                    (S it) (now w) (inbound w) (trace w ++ [EvInsert it key])).

(** [callbacks_.erase(it)]: the node the iterator names is removed. *)
Definition callbacks_erase (it : nat) : M unit :=
  λ w, (tt, mkWorld (set_callbacks (delete it (callbacks_ (gps w))) (gps w))
                    (next_node w) (now w) (inbound w) (trace w ++ [EvErase it])).

(** ** The raw frame dispatcher *)

(** Modelled from the spec: [receive] of a handler (callback.h, not part of
    this file): a persistent handler passes the instance to its sink, a
    one-shot handler stores the first instance and discards the later ones. *)
Definition receive (payload : list Z) (h : Handler) : Handler :=
  match h with
  | Persistent sink delivered => Persistent sink (delivered ++ [payload])
  | OneShot None => OneShot (Some payload)
  | OneShot (Some first) => OneShot (Some first)
  end.

Definition deliver (f : Frame) (node : Key * Handler) : Key * Handler :=
  if bool_decide (node.1 = fr_key f) then (node.1, receive (fr_payload f) node.2)
  else node.

(** Modelled from the spec: one extracted message in [Gps::readCallback]
    (defined outside gps.h): it is routed to every handler registered for its
    identity; the reserved ACK identity sets the tracker to acknowledged, the
    NACK identity to rejected. *)
Definition dispatch `{Codec} (g : Gps) (f : Frame) : Gps :=
  let g1 := set_callbacks (deliver f <$> callbacks_ g) g in
  if bool_decide (fr_key f = ACK_ID) then set_acknowledge ACK g1
  else if bool_decide (fr_key f = NACK_ID) then set_acknowledge NACK g1
  else g1.

(** Modelled from the spec: [Gps::readCallback] on the messages the codec
    extracted from one buffer, in stream order. *)
Definition readCallback `{Codec} (frames : list Frame) (g : Gps) : Gps :=
  foldl dispatch g frames.

(** One tick of a blocked caller: the I/O thread dispatches the batch that
    arrives during the tick. *)
Definition tick `{Codec} (w : World) : World :=
  mkWorld (readCallback (hd [] (inbound w)) (gps w))
          (next_node w) (S (now w)) (tl (inbound w)) (trace w).

(** ** Blocking waits *)

(** Has the one-shot handler of node [it] received an instance? *)
Definition handler_ready (it : nat) (g : Gps) : bool :=
  match callbacks_ g !! it with
  | Some (_, OneShot (Some _)) => true
  | _ => false
  end.

(** Modelled from the spec: the blocking part of [handler->wait(timeout)]
    (callback.h): the caller is released when an instance has arrived or when
    [timeout] ticks have elapsed. *)
Fixpoint wait_loop `{Codec} (it : nat) (timeout : nat) : M bool :=
  λ w, if handler_ready it (gps w) then (true, w)
       else match timeout with
            | O => (false, w)
            | S t => wait_loop it t (tick w)
            end.

Definition handler_wait `{Codec} (it : nat) (timeout : nat) : M bool :=
  emit (EvWait it timeout) ;; wait_loop it timeout.

(** Modelled from the spec: [handler->get()], the value the handler holds; a
    handler that received nothing holds the default-constructed message, the
    empty payload. *)
Definition handler_get (it : nat) : M (list Z) :=
  λ w, (match callbacks_ (gps w) !! it with
        | Some (_, OneShot (Some p)) => p
        | _ => []
        end, w).

(** Modelled from the spec: the blocking part of [Gps::waitForAcknowledge]
    (defined outside gps.h): the caller is blocked until the state leaves
    awaiting or [timeout] ticks have elapsed. *)
Fixpoint ack_loop `{Codec} (timeout : nat) : M unit :=
  λ w, match acknowledge_ (gps w) with
       | WAIT => match timeout with
                 | O => (tt, w)
                 | S t => ack_loop t (tick w)
                 end
       | _ => (tt, w)
       end.

Definition waitForAcknowledge `{Codec} (timeout : nat) : M unit :=
  emit (EvWaitAck timeout) ;; ack_loop timeout.

(** [worker_->send(out.data(), size)]. *)
Definition worker_send (bytes : list Z) : M unit := emit (EvSend bytes).

(** ** Command / poll / read *)

(** [template <typename ConfigT> bool Gps::configure(const ConfigT& message,
    bool wait)]. *)
Definition configure `{Codec} {ConfigT} `{UbloxMessage ConfigT}
    (message : ConfigT) (wait : bool) : M bool :=
  g ← get_gps;
  match worker_ g with
  | None => mret false
  | Some _ =>
    put_gps (set_acknowledge WAIT g) ;; emit EvAckReset ;;
    match Writer_write kWriterSize message with
    | None => mret false
    | Some out =>
      worker_send out ;;
      if negb wait then mret true
      else
        waitForAcknowledge default_timeout_ ;;
        g' ← get_gps;
        mret (bool_decide (acknowledge_ g' = ACK))
    end
  end.

(** [template <typename T> bool Gps::read(T& message, timeout)]: the result and
    the value of the out-parameter [message] when the call returns.  The two
    sections under [callback_mutex_] are the insertion and the removal; the
    handler is reached through the node that holds it. *)
Definition read `{Codec} {T} `{UbloxMessage T}
    (message : T) (timeout : nat) : M (bool * T) :=
  g ← get_gps;
  match worker_ g with
  | None => mret (false, message)
  | Some _ =>
    callback ← callbacks_insert (CLASS_ID T, MESSAGE_ID T) (OneShot None);
    fired ← handler_wait callback timeout;
    r ← (if fired : bool
         then p ← handler_get callback; mret (true, deserialize p)
         else mret (false, message));
    callbacks_erase callback ;;
    mret r
  end.

(** Modelled from the spec: [bool Gps::poll(uint8_t class_id, uint8_t
    message_id, const std::vector<uint8_t>& payload)], declared in gps.h and
    defined elsewhere: a request-for-data frame carrying the identity and the
    payload is sent; the call fails when the driver has no worker or when the
    frame cannot be serialized. *)
Definition poll_id `{Codec} (class_id message_id : Z) (payload : list Z) : M bool :=
  g ← get_gps;
  match worker_ g with
  | None => mret false
  | Some _ =>
    match Writer_write_raw kWriterSize class_id message_id payload with
    | None => mret false
    | Some out => worker_send out ;; mret true
    end
  end.

(** [template <typename ConfigT> bool Gps::poll(ConfigT& message, timeout)]. *)
Definition poll `{Codec} {ConfigT} `{UbloxMessage ConfigT}
    (message : ConfigT) (timeout : nat) : M (bool * ConfigT) :=
  ok ← poll_id (CLASS_ID ConfigT) (MESSAGE_ID ConfigT) [];
  if negb ok then mret (false, message)
  else read message timeout.

(** Modelled from the spec: [bool Gps::setRate(class_id, message_id, rate)],
    declared in gps.h and defined elsewhere: one rate-configuration payload is
    built from the arguments and handed to [configure], which awaits the
    acknowledgment. *)
Definition setRate `{Codec} (class_id message_id rate : Z) : M bool :=
  configure (mkRateCmd class_id message_id rate) true.

(** [template <typename T> Callbacks::iterator Gps::subscribe(callback)]. *)
Definition subscribe `{Codec} (T : Type) `{UbloxMessage T}
    (callback : nat) : M (option nat) :=
  it ← callbacks_insert (CLASS_ID T, MESSAGE_ID T) (Persistent callback []);
  mret (Some it).

(** [template <typename T> Callbacks::iterator Gps::subscribe(callback, rate)];
    [None] is the default-constructed [Callbacks::iterator()]. *)
Definition subscribe_rate `{Codec} (T : Type) `{UbloxMessage T}
    (callback : nat) (rate : Z) : M (option nat) :=
  ok ← setRate (CLASS_ID T) (MESSAGE_ID T) rate;
  if negb ok then mret None
  else subscribe T callback.

(** ** Initialization *)

Section Initialize.
(** The stream and I/O-service types of the template, the constructor
    [new AsyncWorker<StreamT>(stream, io_service)] and the overload
    [Gps::initialize(const boost::shared_ptr<Worker>&)], which gps.h
    declares and does not define. *)
Context {StreamT IoService : Type}.
Variable AsyncWorker : StreamT → IoService → Worker.
Variable initialize_worker : Worker → M unit.

(** [template <typename StreamT> void Gps::initialize(stream, io_service,
    baudrate, uart_in, uart_out)]. *)
Definition initialize (stream : StreamT) (io_service : IoService)
    (baudrate uart_in uart_out : Z) : M unit :=
  g ← get_gps;
  match worker_ g with
  | Some _ => mret tt
  | None => initialize_worker (AsyncWorker stream io_service)
  end.
End Initialize.

(** ** Observations on worlds *)

(** The nodes of the registry and the identity each one is registered for. *)
Definition registered (g : Gps) : gmap nat Key := fst <$> callbacks_ g.

(** The byte strings handed to the transport, oldest first. *)
Definition sends (evs : list Event) : list (list Z) :=
  omap (λ e, match e with EvSend bytes => Some bytes | _ => None end) evs.

Definition is_send (e : Event) : bool :=
  match e with EvSend _ => true | _ => false end.

(** Is some handler inserted into the registry before some later send? *)
Fixpoint insert_before_send (evs : list Event) : bool :=
  match evs with
  | [] => false
  | EvInsert _ _ :: rest => existsb is_send rest || insert_before_send rest
  | _ :: rest => insert_before_send rest
  end.

(** A frame that is neither of the two control messages. *)
Definition not_control `{Codec} (f : Frame) : Prop :=
  fr_key f ≠ ACK_ID ∧ fr_key f ≠ NACK_ID.

(** What the world of a blocked caller keeps from one tick to the next. *)
Definition same_shape (w w' : World) : Prop :=
  worker_ (gps w') = worker_ (gps w) ∧
  registered (gps w') = registered (gps w) ∧
  next_node w' = next_node w ∧
  trace w' = trace w.

(** The allocator has not handed out the iterators from [next_node] on: no
    node of the registry is named by one of them. *)
Definition fresh_nodes (w : World) : Prop :=
  ∀ it, (next_node w ≤ it)%nat → callbacks_ (gps w) !! it = None.

(** The frames that arrive during the next [n] ticks. *)
Definition arriving (n : nat) (w : World) : list Frame :=
  concat (take n (inbound w)).

(** The members that no frame and no call of the command layer assigns. *)
Definition same_device (g g' : Gps) : Prop :=
  worker_ g' = worker_ g ∧
  configured_ g' = configured_ g ∧
  baudrate_ g' = baudrate_ g ∧
  uart_in_ g' = uart_in_ g ∧
  uart_out_ g' = uart_out_ g.

(** Every persistent handler of [g] is still in [g'], in the same node, under
    the same identity and with the same sink, which has received what it had
    received and possibly more. *)
Definition keeps_subscriptions (g g' : Gps) : Prop :=
  ∀ it key sink delivered,
    callbacks_ g !! it = Some (key, Persistent sink delivered) →
    ∃ more, callbacks_ g' !! it = Some (key, Persistent sink (delivered ++ more)).


(** ** A concrete codec and concrete messages, for running the model *)

Module Sample.

(** Length-framed messages: two sync bytes, the identity, the payload length
    (little endian), the payload and a two-byte checksum over everything
    after the sync bytes. *)
Definition checksum (bytes : list Z) : list Z :=
  let '(a, b) := foldl (λ '(a, b) x, let a' := (a + x) mod 256 in (a', (b + a') mod 256))
                       (0, 0) bytes in [a; b].

Definition frame (class_id message_id : Z) (payload : list Z) : list Z :=
  let n := Z.of_nat (length payload) in
  let body := [class_id; message_id; n mod 256; (n / 256) mod 256] ++ payload in
  [181; 98] ++ body ++ checksum body.

Definition write_raw (size : nat) (class_id message_id : Z) (payload : list Z)
    : option (list Z) :=
  if (length payload + 8 <=? size)%nat then Some (frame class_id message_id payload)
  else None.

(** A rate-configuration message: identity of the target and its rate. *)
Record CfgMSG := mkCfgMSG { msgClass : Z; msgID : Z; rate : Z }.

#[export] Instance CfgMSG_msg : UbloxMessage CfgMSG := {|
  CLASS_ID := 6;
  MESSAGE_ID := 1;
  serialize := λ m, [msgClass m; msgID m; rate m];
  deserialize := λ p, mkCfgMSG (nth 0 p 0) (nth 1 p 0) (nth 2 p 0)
|}.

#[export] Instance codec : Codec := {|
  Writer_write_raw := write_raw;
  ACK_ID := (5, 1);
  NACK_ID := (5, 0);
  RateCmd := CfgMSG;
  mkRateCmd := mkCfgMSG
|}.

(** A navigation-rate configuration message (three 16-bit fields). *)
Record CfgRATE := mkCfgRATE { measRate : Z; navRate : Z; timeRef : Z }.

Definition u16 (x : Z) : list Z := [x mod 256; (x / 256) mod 256].
Definition get16 (p : list Z) (i : nat) : Z := nth i p 0 + 256 * nth (S i) p 0.

#[export] Instance CfgRATE_msg : UbloxMessage CfgRATE := {|
  CLASS_ID := 6;
  MESSAGE_ID := 8;
  serialize := λ m, u16 (measRate m) ++ u16 (navRate m) ++ u16 (timeRef m);
  deserialize := λ p, mkCfgRATE (get16 p 0) (get16 p 2) (get16 p 4)
|}.

(** A message with a payload of variable length. *)
Record Blob := mkBlob { blob : list Z }.

#[export] Instance Blob_msg : UbloxMessage Blob := {|
  CLASS_ID := 10;
  MESSAGE_ID := 4;
  serialize := blob;
  deserialize := mkBlob
|}.

Definition worker : Worker := mkWorker true.

(** An initialized driver with an empty registry, and one without worker. *)
Definition gps_init (a : Acknowledge) : Gps :=
  mkGps (Some worker) true a 9600 1 1 ∅.
Definition gps_uninit : Gps :=
  mkGps None false WAIT 0 0 0 ∅.

Definition world (g : Gps) (traffic : list (list Frame)) : World :=
  mkWorld g 0 0 traffic [].

Definition rate_1Hz : CfgRATE := mkCfgRATE 1000 1 0.
Definition oversized : Blob := mkBlob (replicate 1017 0).

(** A stand-in for the overload of [initialize] that adopts a worker, and
    for the constructor of the worker of a stream. *)
Definition adopt (wk : Worker) : M unit :=
  λ w, (tt, mkWorld (mkGps (Some wk) true (acknowledge_ (gps w)) (baudrate_ (gps w))
                           (uart_in_ (gps w)) (uart_out_ (gps w)) (callbacks_ (gps w)))
                    (next_node w) (now w) (inbound w) (trace w)).
Definition stream_worker (stream : nat) (io_service : unit) : Worker :=
  mkWorker (bool_decide (stream ≠ 0%nat)).

(** An initialized driver with one subscription to [CfgRATE], in node 0. *)
Definition gps_subscribed : Gps :=
  mkGps (Some worker) true WAIT 9600 1 1 {[ 0%nat := ((6, 8), Persistent 7 []) ]}.
Definition world_subscribed (traffic : list (list Frame)) : World :=
  mkWorld gps_subscribed 1 0 traffic [].

Definition ack_frame : Frame := mkFrame (5, 1) [6; 8].
Definition nack_frame : Frame := mkFrame (5, 0) [6; 8].
Definition rate_frame : Frame := mkFrame (6, 8) [232; 3; 1; 0; 0; 0].

End Sample.

Import Sample.

(** * Properties *)

(** ** The dispatcher leaves the shape of the driver alone *)

Section Dispatcher.
Context `{Codec}.

Lemma registered_set_acknowledge a g :
  registered (set_acknowledge a g) = registered g.
Proof. reflexivity. Qed.

Lemma deliver_key f node : (deliver f node).1 = node.1.
Proof. unfold deliver. by case_bool_decide. Qed.

Lemma dispatch_worker g f : worker_ (dispatch g f) = worker_ g.
Proof. unfold dispatch. repeat case_bool_decide; reflexivity. Qed.

Lemma dispatch_registered g f : registered (dispatch g f) = registered g.
Proof.
  assert (Hfmap : fst <$> (deliver f <$> callbacks_ g) = fst <$> callbacks_ g).
  { rewrite <- map_fmap_compose. apply map_fmap_ext.
    intros it node _. apply deliver_key. }
  unfold dispatch. repeat case_bool_decide; exact Hfmap.
Qed.

Lemma dispatch_acknowledge g f :
  acknowledge_ (dispatch g f) =
    if bool_decide (fr_key f = ACK_ID) then ACK
    else if bool_decide (fr_key f = NACK_ID) then NACK
    else acknowledge_ g.
Proof. unfold dispatch. repeat case_bool_decide; reflexivity. Qed.

Lemma readCallback_worker frames g :
  worker_ (readCallback frames g) = worker_ g.
Proof.
  unfold readCallback. revert g.
  induction frames as [|f frames IH]; intros g; simpl; [done|].
  by rewrite IH, dispatch_worker.
Qed.

Lemma readCallback_registered frames g :
  registered (readCallback frames g) = registered g.
Proof.
  unfold readCallback. revert g.
  induction frames as [|f frames IH]; intros g; simpl; [done|].
  by rewrite IH, dispatch_registered.
Qed.

Lemma readCallback_quiet frames g :
  Forall not_control frames →
  acknowledge_ (readCallback frames g) = acknowledge_ g.
Proof.
  unfold readCallback. revert g.
  induction frames as [|f frames IH]; intros g Hq; simpl; [done|].
  inversion Hq as [|? ? [Ha Hn] Hq']; subst.
  rewrite IH by done. rewrite dispatch_acknowledge.
  by rewrite !bool_decide_eq_false_2.
Qed.

Lemma readCallback_ack_source frames g :
  acknowledge_ (readCallback frames g) = ACK →
  acknowledge_ g = ACK ∨ ∃ f, f ∈ frames ∧ fr_key f = ACK_ID.
Proof.
  unfold readCallback. revert g.
  induction frames as [|f frames IH]; intros g Hack; simpl in *; [by left|].
  destruct (IH _ Hack) as [Hd | (f' & Hin & Hk)].
  - rewrite dispatch_acknowledge in Hd.
    repeat case_bool_decide; try done; [|by left].
    right. exists f. split; [apply list_elem_of_here | done].
  - right. exists f'. split; [by apply list_elem_of_further | done].
Qed.

Lemma same_shape_refl w : same_shape w w.
Proof. by repeat split. Qed.

Lemma same_shape_trans w1 w2 w3 :
  same_shape w1 w2 → same_shape w2 w3 → same_shape w1 w3.
Proof.
  intros (?&?&?&?) (?&?&?&?). repeat split; congruence.
Qed.

Lemma tick_shape w : same_shape w (tick w).
Proof.
  unfold tick. repeat split; simpl.
  - apply readCallback_worker.
  - apply readCallback_registered.
Qed.

Lemma tick_now w : now (tick w) = S (now w).
Proof. reflexivity. Qed.

Lemma arriving_tick n w :
  arriving (S n) w = hd [] (inbound w) ++ arriving n (tick w).
Proof.
  unfold arriving, tick. simpl. destruct (inbound w) as [|b rest]; simpl.
  - by rewrite take_nil.
  - reflexivity.
Qed.

(** The handler wait: at most [timeout] ticks, ready exactly when told so. *)
Lemma wait_loop_spec it timeout w :
  let r := wait_loop it timeout w in
  same_shape w r.2 ∧
  (now w ≤ now r.2 ≤ now w + timeout)%nat ∧
  handler_ready it (gps r.2) = r.1 ∧
  (r.1 = false → now r.2 = (now w + timeout)%nat).
Proof.
  revert w. induction timeout as [|t IH]; intros w; simpl.
  - destruct (handler_ready it (gps w)) eqn:Hr; simpl;
      (split; [apply same_shape_refl|]); repeat split; try lia; done.
  - destruct (handler_ready it (gps w)) eqn:Hr; simpl.
    + (split; [apply same_shape_refl|]); repeat split; try lia; done.
    + destruct (IH (tick w)) as (Hs & Hn & Hrd & Hto).
      rewrite tick_now in Hn, Hto.
      split; [exact (same_shape_trans _ _ _ (tick_shape w) Hs)|].
      repeat split; try lia; try done.
      intros Hf. rewrite (Hto Hf). lia.
Qed.

(** The acknowledgment wait: at most [timeout] ticks; it ends with the state
    still awaiting only when all of them have elapsed. *)
Lemma ack_loop_spec timeout w :
  let r := ack_loop timeout w in
  same_shape w r.2 ∧
  (now w ≤ now r.2 ≤ now w + timeout)%nat ∧
  (acknowledge_ (gps r.2) = WAIT → now r.2 = (now w + timeout)%nat).
Proof.
  revert w. induction timeout as [|t IH]; intros w; simpl.
  - destruct (acknowledge_ (gps w)) eqn:Ha; simpl;
      (split; [apply same_shape_refl|]); repeat split; try lia;
      intros; congruence || lia.
  - destruct (acknowledge_ (gps w)) eqn:Ha; simpl.
    + destruct (IH (tick w)) as (Hs & Hn & Hto).
      rewrite tick_now in Hn, Hto.
      split; [exact (same_shape_trans _ _ _ (tick_shape w) Hs)|].
      repeat split; try lia.
      intros Hw. rewrite (Hto Hw). lia.
    + (split; [apply same_shape_refl|]); repeat split; try lia; congruence.
    + (split; [apply same_shape_refl|]); repeat split; try lia; congruence.
Qed.

Lemma ack_loop_done timeout w :
  acknowledge_ (gps w) ≠ WAIT → ack_loop timeout w = (tt, w).
Proof. destruct timeout; simpl; by destruct (acknowledge_ (gps w)). Qed.

Lemma ack_loop_quiet timeout w :
  acknowledge_ (gps w) = WAIT →
  Forall not_control (arriving timeout w) →
  acknowledge_ (gps (ack_loop timeout w).2) = WAIT.
Proof.
  revert w. induction timeout as [|t IH]; intros w Ha Hq; simpl.
  - by rewrite Ha.
  - rewrite Ha. rewrite arriving_tick in Hq.
    apply Forall_app in Hq as [Hq1 Hq2].
    apply IH; [|done]. unfold tick; simpl.
    by rewrite readCallback_quiet.
Qed.

Lemma ack_loop_source timeout w :
  acknowledge_ (gps w) = WAIT →
  acknowledge_ (gps (ack_loop timeout w).2) = ACK →
  ∃ f, f ∈ arriving timeout w ∧ fr_key f = ACK_ID.
Proof.
  revert w. induction timeout as [|t IH]; intros w Ha Hack; simpl in *.
  - rewrite Ha in Hack. simpl in Hack. congruence.
  - rewrite Ha in Hack. rewrite arriving_tick.
    destruct (acknowledge_ (gps (tick w))) eqn:Ht.
    + destruct (IH (tick w) Ht Hack) as (f & Hin & Hk).
      exists f. split; [|done]. apply elem_of_app. by right.
    + unfold tick in Ht; simpl in Ht.
      apply readCallback_ack_source in Ht as [Hd | (f & Hin & Hk)]; [congruence|].
      exists f. split; [|done]. apply elem_of_app. by left.
    + rewrite ack_loop_done in Hack by congruence.
      cbn [snd] in Hack. congruence.
Qed.
End Dispatcher.

(** ** configure *)

Section Configure.
Context `{Codec} {ConfigT : Type} `{UbloxMessage ConfigT}.

(** The world of [configure] once the tracker is reset and the bytes are
    handed to the transport. *)
Lemma configure_sent (message : ConfigT) (wait : bool) w wk out :
  worker_ (gps w) = Some wk →
  Writer_write kWriterSize message = Some out →
  let sent := mkWorld (set_acknowledge WAIT (gps w)) (next_node w) (now w)
                      (inbound w) (trace w ++ [EvAckReset; EvSend out]) in
  configure message wait w =
    if wait then
      let w' := (waitForAcknowledge default_timeout_ sent).2 in
      (bool_decide (acknowledge_ (gps w') = ACK), w')
    else (true, sent).
Proof.
  intros Hw Hser. unfold configure.
  unfold mbind at 1, M_bind at 1, get_gps. rewrite Hw, Hser.
  unfold mbind, M_bind, mret, M_ret, put_gps, worker_send, emit.
  cbn [gps next_node now inbound trace].
  rewrite <- !app_assoc. cbn [app].
  destruct wait; cbn [negb]; [|reflexivity].
  destruct (waitForAcknowledge default_timeout_ _) as [[] w']. reflexivity.
Qed.

Lemma configure_failed (message : ConfigT) (wait : bool) w wk :
  worker_ (gps w) = Some wk →
  Writer_write kWriterSize message = None →
  configure message wait w =
    (false, mkWorld (set_acknowledge WAIT (gps w)) (next_node w) (now w)
                    (inbound w) (trace w ++ [EvAckReset])).
Proof.
  intros Hw Hser. unfold configure.
  unfold mbind at 1, M_bind at 1, get_gps. rewrite Hw, Hser.
  reflexivity.
Qed.

Lemma configure_uninitialized (message : ConfigT) (wait : bool) w :
  worker_ (gps w) = None → configure message wait w = (false, w).
Proof.
  intros Hw. unfold configure.
  unfold mbind at 1, M_bind at 1, get_gps. by rewrite Hw.
Qed.

Lemma waitForAcknowledge_spec timeout w :
  let w' := (waitForAcknowledge timeout w).2 in
  worker_ (gps w') = worker_ (gps w) ∧
  registered (gps w') = registered (gps w) ∧
  next_node w' = next_node w ∧
  trace w' = trace w ++ [EvWaitAck timeout] ∧
  (now w ≤ now w' ≤ now w + timeout)%nat ∧
  (acknowledge_ (gps w') = WAIT → now w' = (now w + timeout)%nat).
Proof.
  unfold waitForAcknowledge, mbind, M_bind, emit. cbv zeta. cbn beta iota.
  set (w1 := mkWorld _ _ _ _ _).
  destruct (ack_loop_spec timeout w1) as ((Hk & Hr & Hn & Ht) & Hnow & Hto).
  change (now w1) with (now w) in *.
  repeat split; try done; lia.
Qed.
End Configure.

(** C1.  On an initialized driver, for a message that serializes:
    [configure(message, false)] returns true right after the send, without
    waiting; [configure(message, true)] waits for at most the default timeout
    and returns true exactly when the acknowledgment state after the wait is
    ACK, hence false when it is NACK and false when it is still WAIT, which
    happens only after the whole timeout.  A true result means that an ACK
    frame arrived within the default timeout; when no control frame arrives
    within it, the result is false. *)
Theorem configure_result `{Codec} {ConfigT} `{UbloxMessage ConfigT}
    (message : ConfigT) (wait : bool) (w : World) (wk : Worker) (out : list Z) :
  worker_ (gps w) = Some wk →
  Writer_write kWriterSize message = Some out →
  let r := configure message wait w in
  (wait = false →
     r.1 = true ∧ now r.2 = now w ∧
     trace r.2 = trace w ++ [EvAckReset; EvSend out]) ∧
  (wait = true →
     trace r.2 = trace w ++ [EvAckReset; EvSend out; EvWaitAck default_timeout_] ∧
     (now r.2 ≤ now w + default_timeout_)%nat ∧
     (r.1 = true ↔ acknowledge_ (gps r.2) = ACK) ∧
     (acknowledge_ (gps r.2) = NACK → r.1 = false) ∧
     (acknowledge_ (gps r.2) = WAIT →
        r.1 = false ∧ now r.2 = (now w + default_timeout_)%nat) ∧
     (r.1 = true → ∃ f, f ∈ arriving default_timeout_ w ∧ fr_key f = ACK_ID) ∧
     (Forall not_control (arriving default_timeout_ w) →
        r.1 = false ∧ now r.2 = (now w + default_timeout_)%nat)).
Proof.
  intros Hw Hser r. subst r.
  rewrite (configure_sent message wait w wk out Hw Hser).
  generalize default_timeout_. intros t.
  split; intros ->; cbn [fst snd now trace]; [done|].
  set (sent := mkWorld _ _ _ _ _).
  destruct (waitForAcknowledge_spec t sent) as (_ & _ & _ & Htr & Hnow & Hto).
  set (w' := (waitForAcknowledge t sent).2) in *.
  change (now sent) with (now w) in *.
  assert (Hloop : w' = (ack_loop t (mkWorld (gps sent) (next_node sent) (now sent)
                          (inbound sent) (trace sent ++ [EvWaitAck t]))).2).
  { subst w'. unfold waitForAcknowledge, mbind, M_bind, emit. reflexivity. }
  assert (Hsrc : acknowledge_ (gps w') = ACK →
                 ∃ f, f ∈ arriving t w ∧ fr_key f = ACK_ID).
  { rewrite Hloop. intros Hack.
    apply ack_loop_source in Hack; [|reflexivity]. exact Hack. }
  assert (Hquiet : Forall not_control (arriving t w) → acknowledge_ (gps w') = WAIT).
  { rewrite Hloop. intros Hq. apply ack_loop_quiet; [reflexivity|exact Hq]. }
  split; [|split; [|split; [|split; [|split; [|split]]]]].
  - rewrite Htr. subst sent. cbn [trace]. by rewrite <- app_assoc.
  - lia.
  - apply bool_decide_eq_true.
  - intros Ha. apply bool_decide_eq_false_2. congruence.
  - intros Ha. split; [|by apply Hto].
    apply bool_decide_eq_false_2. congruence.
  - intros Hb. apply bool_decide_eq_true_1 in Hb. by apply Hsrc.
  - intros Hq. apply Hquiet in Hq. split; [|by apply Hto].
    apply bool_decide_eq_false_2. congruence.
Qed.

Lemma configure_result_witness :
  let r := configure rate_1Hz true (world (gps_init NACK) [[]; [ack_frame]]) in
  r.1 = true ∧ acknowledge_ (gps r.2) = ACK ∧ now r.2 = 2%nat.
Proof.
  pose proof (configure_result rate_1Hz true
                (world (gps_init NACK) [[]; [ack_frame]]) worker
                [181; 98; 6; 8; 6; 0; 232; 3; 1; 0; 0; 0; 0; 55]
                eq_refl eq_refl) as [_ Hwait].
  destruct (Hwait eq_refl) as (_ & _ & Hiff & _).
  split; [|split].
  - apply Hiff. vm_compute. reflexivity.
  - vm_compute. reflexivity.
  - vm_compute. reflexivity.
Defined.

(** ** read *)

Section Read.
Context `{Codec} {T : Type} `{UbloxMessage T}.

Lemma read_uninitialized (message : T) timeout w :
  worker_ (gps w) = None → read message timeout w = ((false, message), w).
Proof.
  intros Hw. unfold read.
  unfold mbind at 1, M_bind at 1, get_gps. by rewrite Hw.
Qed.

(** [read] on an initialized driver, statement by statement: the insertion,
    the wait, and the removal of the node that was inserted. *)
Lemma read_run (message : T) timeout w wk :
  worker_ (gps w) = Some wk →
  let it := next_node w in
  let key := (CLASS_ID T, MESSAGE_ID T) in
  let inserted :=
    mkWorld (set_callbacks (<[it := (key, OneShot None)]> (callbacks_ (gps w))) (gps w))
            (S it) (now w) (inbound w) (trace w ++ [EvInsert it key; EvWait it timeout]) in
  let waited := wait_loop it timeout inserted in
  read message timeout w =
    ((if waited.1
      then (true, deserialize (handler_get it waited.2).1)
      else (false, message)),
     mkWorld (set_callbacks (delete it (callbacks_ (gps waited.2))) (gps waited.2))
             (next_node waited.2) (now waited.2) (inbound waited.2)
             (trace waited.2 ++ [EvErase it])).
Proof.
  intros Hw. cbv zeta. unfold read.
  unfold mbind at 1, M_bind at 1, get_gps. rewrite Hw.
  unfold handler_wait, callbacks_insert, callbacks_erase, emit,
    mbind, M_bind, mret, M_ret.
  cbn [gps next_node now inbound trace].
  rewrite <- !app_assoc. cbn [app].
  destruct (wait_loop _ _ _) as [[] w']; reflexivity.
Qed.

Lemma read_trace (message : T) timeout w wk :
  worker_ (gps w) = Some wk →
  trace (read message timeout w).2 =
    trace w ++ [EvInsert (next_node w) (CLASS_ID T, MESSAGE_ID T);
                EvWait (next_node w) timeout; EvErase (next_node w)].
Proof.
  intros Hw. rewrite (read_run message timeout w wk Hw). cbv zeta.
  set (inserted := mkWorld _ _ _ _ _).
  destruct (wait_loop_spec (next_node w) timeout inserted) as ((_ & _ & _ & Htr) & _).
  cbn [snd trace]. rewrite Htr. subst inserted. cbn [trace].
  by rewrite <- app_assoc.
Qed.

Lemma registered_insert_delete (g g' : Gps) it key h :
  callbacks_ g !! it = None →
  registered g' = registered (set_callbacks (<[it := (key, h)]> (callbacks_ g)) g) →
  registered (set_callbacks (delete it (callbacks_ g')) g') = registered g.
Proof.
  unfold registered. cbn [callbacks_ set_callbacks]. intros Hfresh Hreg.
  rewrite fmap_delete, Hreg, fmap_insert, delete_insert_eq.
  apply delete_id. by rewrite lookup_fmap, Hfresh.
Qed.
End Read.

(** C3.  On an initialized driver, whatever the outcome of the wait,
    [read] leaves no node in the registry under the iterator it obtained from
    its own insertion: it inserted one handler, under the identity of [T],
    waited on it and erased it.  When that iterator was fresh, the registry
    holds after the call exactly the nodes it held before, each under the
    identity it had. *)
Theorem read_deregisters `{Codec} {T} `{UbloxMessage T}
    (message : T) (timeout : nat) (w : World) (wk : Worker) :
  worker_ (gps w) = Some wk →
  let r := read message timeout w in
  let it := next_node w in
  callbacks_ (gps r.2) !! it = None ∧
  trace r.2 = trace w ++ [EvInsert it (CLASS_ID T, MESSAGE_ID T);
                          EvWait it timeout; EvErase it] ∧
  (callbacks_ (gps w) !! it = None →
     registered (gps r.2) = registered (gps w)).
Proof.
  intros Hw r it. subst r.
  split; [|split; [exact (read_trace message timeout w wk Hw)|]];
    rewrite (read_run message timeout w wk Hw); cbv zeta; fold it;
    cbn [snd gps callbacks_ set_callbacks].
  - apply lookup_delete_eq.
  - set (inserted := mkWorld _ _ _ _ _).
    destruct (wait_loop_spec it timeout inserted) as ((_ & Hreg & _) & _).
    intros Hfresh.
    exact (registered_insert_delete (gps w) _ it _ (OneShot None) Hfresh Hreg).
Qed.

Lemma read_deregisters_witness :
  let delivered := read rate_1Hz 5 (world (gps_init WAIT) [[]; [rate_frame]]) in
  let timed_out := read rate_1Hz 5 (world (gps_init WAIT) []) in
  (delivered.1.1 = true ∧ callbacks_ (gps delivered.2) !! 0%nat = None ∧
   registered (gps delivered.2) = ∅) ∧
  (timed_out.1.1 = false ∧ callbacks_ (gps timed_out.2) !! 0%nat = None ∧
   registered (gps timed_out.2) = ∅).
Proof.
  pose proof (read_deregisters rate_1Hz 5
                (world (gps_init WAIT) [[]; [rate_frame]]) worker eq_refl)
    as (Hgone & _ & Hsame).
  pose proof (read_deregisters rate_1Hz 5
                (world (gps_init WAIT) []) worker eq_refl)
    as (Hgone' & _ & Hsame').
  split; (split; [vm_compute; reflexivity|split]).
  - exact Hgone.
  - exact (Hsame eq_refl).
  - exact Hgone'.
  - exact (Hsame' eq_refl).
Defined.

Lemma sends_app evs evs' : sends (evs ++ evs') = sends evs ++ sends evs'.
Proof. unfold sends. apply omap_app. Qed.

(** C4.  The send buffer has exactly [kWriterSize] = 1024 bytes.  When the
    message does not serialize into it, [configure] returns false at once:
    no tick elapses, nothing is handed to the transport, no wait is started
    (the only call recorded is the reset of the tracker, on an initialized
    driver). *)
Theorem configure_serialization_failure `{Codec} {ConfigT} `{UbloxMessage ConfigT}
    (message : ConfigT) (wait : bool) (w : World) :
  Writer_write kWriterSize message = None →
  let r := configure message wait w in
  kWriterSize = 1024%nat ∧
  r.1 = false ∧
  sends (trace r.2) = sends (trace w) ∧
  trace r.2 = trace w ++ (if isInitialized (gps w) then [EvAckReset] else []) ∧
  now r.2 = now w ∧
  inbound r.2 = inbound w.
Proof.
  intros Hser r. subst r. split; [reflexivity|]. unfold isInitialized.
  destruct (worker_ (gps w)) as [wk|] eqn:Hw.
  - rewrite (configure_failed message wait w wk Hw Hser). cbn [fst snd trace now inbound].
    rewrite sends_app, app_nil_r. done.
  - rewrite (configure_uninitialized message wait w Hw). cbn [fst snd].
    by rewrite app_nil_r.
Qed.

Lemma configure_serialization_failure_witness :
  let r := configure oversized true (world (gps_init ACK) [[ack_frame]]) in
  r.1 = false ∧ sends (trace r.2) = [] ∧ now r.2 = 0%nat.
Proof.
  assert (Hser : Writer_write kWriterSize oversized = None)
    by (vm_compute; reflexivity).
  destruct (configure_serialization_failure oversized true
              (world (gps_init ACK) [[ack_frame]]) Hser)
    as (_ & Hr & Hs & _ & Hn & _).
  exact (conj Hr (conj Hs Hn)).
Defined.

(** C5, as stated, fails: with a message that does not serialize, on an
    initialized driver whose tracker holds ACK, [configure] returns with the
    tracker at WAIT: the reset has been reached. *)
Lemma configure_reset_precedes_serialization :
  let w := world (gps_init ACK) [] in
  let r := configure oversized true w in
  Writer_write kWriterSize oversized = None ∧
  r.1 = false ∧
  acknowledge_ (gps w) = ACK ∧
  acknowledge_ (gps r.2) = WAIT ∧
  acknowledge_ (gps r.2) ≠ acknowledge_ (gps w).
Proof. vm_compute. repeat split; congruence. Qed.

(** C5, amended.  On an initialized driver [configure] resets the tracker to
    WAIT before it serializes the message.  When the message serializes, the
    send follows the reset directly; when it does not, [configure] returns
    false with the tracker at WAIT, the rest of the driver untouched and
    nothing sent. *)
Theorem configure_reset_order `{Codec} {ConfigT} `{UbloxMessage ConfigT}
    (message : ConfigT) (wait : bool) (w : World) (wk : Worker) :
  worker_ (gps w) = Some wk →
  let r := configure message wait w in
  (Writer_write kWriterSize message = None →
     r = (false, mkWorld (set_acknowledge WAIT (gps w)) (next_node w) (now w)
                         (inbound w) (trace w ++ [EvAckReset]))) ∧
  (∀ out, Writer_write kWriterSize message = Some out →
     ∃ rest, trace r.2 = trace w ++ EvAckReset :: EvSend out :: rest).
Proof.
  intros Hw r. subst r. split.
  - intros Hser. by apply configure_failed with wk.
  - intros out Hser. rewrite (configure_sent message wait w wk out Hw Hser).
    destruct wait; cbn [snd trace].
    + set (sent := mkWorld _ _ _ _ _).
      destruct (waitForAcknowledge_spec default_timeout_ sent) as (_ & _ & _ & Htr & _).
      exists [EvWaitAck default_timeout_]. rewrite Htr. subst sent. cbn [trace].
      by rewrite <- app_assoc.
    + by exists [].
Qed.

Lemma configure_reset_order_witness :
  configure oversized true (world (gps_init ACK) []) =
    (false, mkWorld (gps_init WAIT) 0 0 [] [EvAckReset]).
Proof.
  apply (configure_reset_order oversized true (world (gps_init ACK) []) worker eq_refl).
  vm_compute. reflexivity.
Defined.

(** C8.  On a driver without worker, [read] and [configure] return false and
    leave the world as it is: no tick elapses, no handler is inserted,
    nothing is sent. *)
Theorem uninitialized_calls_fail `{Codec} {T} `{UbloxMessage T}
    {ConfigT} `{UbloxMessage ConfigT}
    (out_message : T) (timeout : nat) (message : ConfigT) (wait : bool) (w : World) :
  isInitialized (gps w) = false →
  read out_message timeout w = ((false, out_message), w) ∧
  configure message wait w = (false, w).
Proof.
  unfold isInitialized. intros Hinit.
  destruct (worker_ (gps w)) eqn:Hw; [discriminate|].
  split; [by apply read_uninitialized | by apply configure_uninitialized].
Qed.

Lemma uninitialized_calls_fail_witness :
  let w := world gps_uninit [[rate_frame]; [ack_frame]] in
  read rate_1Hz 5 w = ((false, rate_1Hz), w) ∧
  configure rate_1Hz true w = (false, w).
Proof.
  exact (uninitialized_calls_fail rate_1Hz 5 rate_1Hz true
           (world gps_uninit [[rate_frame]; [ack_frame]]) eq_refl).
Defined.

(** ** poll *)

Section Poll.
Context `{Codec}.

(** The request of [poll]: either the frame is sent and nothing else
    happens, or the call fails and nothing happens at all. *)
Lemma poll_id_run class_id message_id payload w :
  poll_id class_id message_id payload w =
    match worker_ (gps w), Writer_write_raw kWriterSize class_id message_id payload with
    | Some _, Some out =>
        (true, mkWorld (gps w) (next_node w) (now w) (inbound w)
                       (trace w ++ [EvSend out]))
    | _, _ => (false, w)
    end.
Proof.
  unfold poll_id. unfold mbind at 1, M_bind at 1, get_gps.
  destruct (worker_ (gps w)); [|reflexivity].
  destruct (Writer_write_raw _ _ _ _); reflexivity.
Qed.

Lemma poll_run {ConfigT} `{UbloxMessage ConfigT} (message : ConfigT) timeout w :
  poll message timeout w =
    let req := poll_id (CLASS_ID ConfigT) (MESSAGE_ID ConfigT) [] w in
    if req.1 then read message timeout req.2 else ((false, message), w).
Proof.
  unfold poll. unfold mbind at 1, M_bind at 1. cbv zeta.
  rewrite poll_id_run.
  destruct (worker_ (gps w)); [|reflexivity].
  destruct (Writer_write_raw _ _ _ _); reflexivity.
Qed.
End Poll.

(** C6.  [poll] first sends the request frame under the identity of its
    message type.  When the request fails, [poll] returns false with the
    out-parameter and the world untouched: no read, no wait.  When it
    succeeds, exactly that frame has been handed to the transport and [poll]
    is [read] from there on. *)
Theorem poll_sends_then_reads `{Codec} {ConfigT} `{UbloxMessage ConfigT}
    (message : ConfigT) (timeout : nat) (w : World) :
  let req := poll_id (CLASS_ID ConfigT) (MESSAGE_ID ConfigT) [] w in
  (req.1 = false → poll message timeout w = ((false, message), w)) ∧
  (req.1 = true →
     poll message timeout w = read message timeout req.2 ∧
     ∃ out,
       Writer_write_raw kWriterSize (CLASS_ID ConfigT) (MESSAGE_ID ConfigT) [] = Some out ∧
       req.2 = mkWorld (gps w) (next_node w) (now w) (inbound w)
                       (trace w ++ [EvSend out])).
Proof.
  cbv zeta. rewrite poll_run. cbv zeta. rewrite poll_id_run.
  destruct (worker_ (gps w)) as [wk|]; [|by split].
  destruct (Writer_write_raw _ _ _ _) as [out|]; [|by split].
  cbn [fst snd]. split; [done|]. intros _. split; [done|]. by exists out.
Qed.

Lemma poll_sends_then_reads_witness :
  poll rate_1Hz 5 (world (gps_init WAIT) [[]; [rate_frame]]) =
    read rate_1Hz 5
      (mkWorld (gps_init WAIT) 0 0 [[]; [rate_frame]] [EvSend [181; 98; 6; 8; 0; 0; 14; 48]]) ∧
  poll oversized 5 (world gps_uninit [[rate_frame]]) =
    ((false, oversized), world gps_uninit [[rate_frame]]).
Proof.
  split.
  - exact (proj1 (proj2 (poll_sends_then_reads rate_1Hz 5
                           (world (gps_init WAIT) [[]; [rate_frame]])) eq_refl)).
  - exact (proj1 (poll_sends_then_reads oversized 5
                    (world gps_uninit [[rate_frame]])) eq_refl).
Defined.

(** C2, as stated, fails: [poll] hands the request to the transport before
    any handler is inserted; no insertion precedes a send in its trace. *)
Lemma poll_sends_before_registering :
  let r := poll rate_1Hz 5 (world (gps_init WAIT) [[]; [rate_frame]]) in
  trace r.2 = [EvSend [181; 98; 6; 8; 0; 0; 14; 48];
               EvInsert 0 (6, 8); EvWait 0 5; EvErase 0] ∧
  insert_before_send (trace r.2) = false.
Proof. vm_compute. split; reflexivity. Qed.

(** C2, amended.  [read] inserts its one-shot handler before it starts to
    wait, and sends nothing.  [poll] on an initialized driver, when the
    request serializes, hands the request to the transport first and only then
    inserts the handler, waits on it and erases it. *)
Theorem poll_registers_after_send `{Codec} {ConfigT} `{UbloxMessage ConfigT}
    (message : ConfigT) (timeout : nat) (w : World) (wk : Worker) (out : list Z) :
  worker_ (gps w) = Some wk →
  Writer_write_raw kWriterSize (CLASS_ID ConfigT) (MESSAGE_ID ConfigT) [] = Some out →
  let it := next_node w in
  let key := (CLASS_ID ConfigT, MESSAGE_ID ConfigT) in
  trace (read message timeout w).2 =
    trace w ++ [EvInsert it key; EvWait it timeout; EvErase it] ∧
  sends (trace (read message timeout w).2) = sends (trace w) ∧
  trace (poll message timeout w).2 =
    trace w ++ [EvSend out; EvInsert it key; EvWait it timeout; EvErase it] ∧
  insert_before_send [EvSend out; EvInsert it key; EvWait it timeout; EvErase it] = false.
Proof.
  intros Hw Hser it key.
  pose proof (read_trace message timeout w wk Hw) as Hread.
  fold it key in Hread.
  split; [exact Hread|]. split.
  { rewrite Hread, sends_app. cbn. apply app_nil_r. }
  split; [|reflexivity].
  rewrite poll_run. cbv zeta. rewrite poll_id_run, Hw, Hser. cbn [fst snd].
  set (w1 := mkWorld _ _ _ _ _).
  rewrite (read_trace message timeout w1 wk Hw). subst w1. cbn [trace next_node].
  by rewrite <- app_assoc.
Qed.

Lemma poll_registers_after_send_witness :
  trace (poll rate_1Hz 5 (world (gps_init WAIT) [[]; [rate_frame]])).2 =
    [EvSend [181; 98; 6; 8; 0; 0; 14; 48]; EvInsert 0 (6, 8); EvWait 0 5; EvErase 0].
Proof.
  exact (proj1 (proj2 (proj2
    (poll_registers_after_send rate_1Hz 5 (world (gps_init WAIT) [[]; [rate_frame]])
       worker [181; 98; 6; 8; 0; 0; 14; 48] eq_refl eq_refl)))).
Defined.

(** The order of [poll] at work: when the I/O thread dispatches the reply
    after the request is sent and before [read] is entered, no handler is
    registered for it and [read] times out; when the reply is dispatched
    during the wait, [read] returns it. *)
Example reply_before_registration_is_dropped :
  let w := world (gps_init WAIT) [[rate_frame]] in
  let sent := (poll_id 6 8 [] w).2 in
  (read (mkCfgRATE 0 0 0) 5 (tick sent)).1 = (false, mkCfgRATE 0 0 0) ∧
  (read (mkCfgRATE 0 0 0) 5 sent).1 = (true, rate_1Hz).
Proof. vm_compute. split; reflexivity. Qed.

(** ** subscribe *)

Section Subscribe.
Context `{Codec}.

(** What every call of [configure] keeps, and what a true result of a
    waiting call tells. *)
Lemma configure_keeps {ConfigT} `{UbloxMessage ConfigT} (message : ConfigT) wait w :
  let r := configure message wait w in
  registered (gps r.2) = registered (gps w) ∧
  next_node r.2 = next_node w ∧
  (length (sends (trace r.2)) ≤ S (length (sends (trace w))))%nat.
Proof.
  cbv zeta.
  destruct (worker_ (gps w)) as [wk|] eqn:Hw;
    [|rewrite (configure_uninitialized message wait w Hw); cbn [snd];
      repeat split; lia].
  destruct (Writer_write kWriterSize message) as [out|] eqn:Hser.
  - rewrite (configure_sent message wait w wk out Hw Hser). cbv zeta.
    destruct wait; cbn [snd gps next_node trace].
    + set (sent := mkWorld _ _ _ _ _).
      destruct (waitForAcknowledge_spec default_timeout_ sent)
        as (_ & Hreg & Hn & Htr & _).
      rewrite Hreg, Hn, Htr. subst sent. cbn [gps next_node trace].
      rewrite !sends_app, !length_app. cbn. repeat split; lia.
    + rewrite sends_app, length_app. cbn. repeat split; lia.
  - rewrite (configure_failed message wait w wk Hw Hser). cbn [snd gps next_node trace].
    rewrite sends_app, length_app. cbn. repeat split; lia.
Qed.

Lemma configure_acknowledged {ConfigT} `{UbloxMessage ConfigT} (message : ConfigT) w :
  let r := configure message true w in
  r.1 = true →
  acknowledge_ (gps r.2) = ACK ∧
  ∃ out, Writer_write kWriterSize message = Some out ∧
         trace r.2 = trace w ++ [EvAckReset; EvSend out; EvWaitAck default_timeout_].
Proof.
  cbv zeta.
  destruct (worker_ (gps w)) as [wk|] eqn:Hw;
    [|by rewrite (configure_uninitialized message true w Hw)].
  destruct (Writer_write kWriterSize message) as [out|] eqn:Hser;
    [|by rewrite (configure_failed message true w wk Hw Hser)].
  rewrite (configure_sent message true w wk out Hw Hser). cbv zeta. cbn [fst snd].
  set (sent := mkWorld _ _ _ _ _).
  destruct (waitForAcknowledge_spec default_timeout_ sent) as (_ & _ & _ & Htr & _).
  intros Hack%bool_decide_eq_true_1. split; [done|].
  exists out. split; [done|]. rewrite Htr. subst sent. cbn [trace].
  by rewrite <- app_assoc.
Qed.

Lemma subscribe_rate_run (T : Type) `{UbloxMessage T} callback rate w :
  subscribe_rate T callback rate w =
    let cmd := setRate (CLASS_ID T) (MESSAGE_ID T) rate w in
    if cmd.1 then subscribe T callback cmd.2 else (None, cmd.2).
Proof.
  unfold subscribe_rate. unfold mbind at 1, M_bind at 1. cbv zeta.
  destruct (setRate _ _ _ w) as [[] w1]; reflexivity.
Qed.
End Subscribe.

(** ** The iterators stay fresh *)

Section Fresh.
Context `{Codec}.

Lemma fresh_nodes_registered w :
  fresh_nodes w ↔ ∀ it, (next_node w ≤ it)%nat → registered (gps w) !! it = None.
Proof.
  unfold fresh_nodes, registered.
  split; intros Hf it Hle; specialize (Hf it Hle).
  - by rewrite lookup_fmap, Hf.
  - rewrite lookup_fmap in Hf. by destruct (callbacks_ (gps w) !! it).
Qed.

Lemma fresh_nodes_keep w w' :
  registered (gps w') = registered (gps w) →
  (next_node w ≤ next_node w')%nat →
  fresh_nodes w → fresh_nodes w'.
Proof.
  rewrite !fresh_nodes_registered. intros Hreg Hn Hf it Hle.
  rewrite Hreg. apply Hf. lia.
Qed.


Lemma configure_fresh {ConfigT} `{UbloxMessage ConfigT} (message : ConfigT) wait w :
  fresh_nodes w → fresh_nodes (configure message wait w).2.
Proof.
  destruct (configure_keeps message wait w) as (Hreg & Hn & _).
  apply fresh_nodes_keep; [done | lia].
Qed.

Lemma insert_fresh key h w :
  fresh_nodes w → fresh_nodes (callbacks_insert key h w).2.
Proof.
  unfold fresh_nodes, callbacks_insert. cbn. intros Hf it Hle.
  rewrite lookup_insert_ne by lia. apply Hf. lia.
Qed.

Lemma subscribe_fresh (T : Type) `{UbloxMessage T} callback w :
  fresh_nodes w → fresh_nodes (subscribe T callback w).2.
Proof. apply insert_fresh. Qed.

Lemma read_next_node {T} `{UbloxMessage T} (message : T) timeout w wk :
  worker_ (gps w) = Some wk → next_node (read message timeout w).2 = S (next_node w).
Proof.
  intros Hw. rewrite (read_run message timeout w wk Hw). cbv zeta.
  set (inserted := mkWorld _ _ _ _ _).
  destruct (wait_loop_spec (next_node w) timeout inserted) as ((_ & _ & Hn & _) & _).
  cbn [snd next_node]. by rewrite Hn.
Qed.

Lemma read_registered {T} `{UbloxMessage T} (message : T) timeout w :
  fresh_nodes w → registered (gps (read message timeout w).2) = registered (gps w).
Proof.
  intros Hf. destruct (worker_ (gps w)) as [wk|] eqn:Hw;
    [|by rewrite (read_uninitialized message timeout w Hw)].
  rewrite (read_run message timeout w wk Hw). cbv zeta.
  set (inserted := mkWorld _ _ _ _ _).
  destruct (wait_loop_spec (next_node w) timeout inserted) as ((_ & Hreg & _) & _).
  cbn [snd gps].
  refine (registered_insert_delete (gps w) _ _ _ (OneShot None) _ Hreg).
  by apply Hf.
Qed.

Lemma read_fresh {T} `{UbloxMessage T} (message : T) timeout w :
  fresh_nodes w → fresh_nodes (read message timeout w).2.
Proof.
  intros Hf. apply fresh_nodes_keep with w; [by apply read_registered| |done].
  destruct (worker_ (gps w)) as [wk|] eqn:Hw.
  - rewrite (read_next_node message timeout w wk Hw). lia.
  - by rewrite (read_uninitialized message timeout w Hw).
Qed.

Lemma poll_fresh {ConfigT} `{UbloxMessage ConfigT} (message : ConfigT) timeout w :
  fresh_nodes w → fresh_nodes (poll message timeout w).2.
Proof.
  intros Hf. rewrite poll_run. cbv zeta. rewrite poll_id_run.
  destruct (worker_ (gps w)); [|done].
  destruct (Writer_write_raw _ _ _ _); [|done].
  cbn [fst snd]. by apply read_fresh.
Qed.

Lemma subscribe_rate_fresh (T : Type) `{UbloxMessage T} callback rate w :
  fresh_nodes w → fresh_nodes (subscribe_rate T callback rate w).2.
Proof.
  intros Hf. rewrite subscribe_rate_run. cbv zeta. unfold setRate.
  pose proof (configure_fresh (mkRateCmd (CLASS_ID T) (MESSAGE_ID T) rate) true w Hf) as Hc.
  destruct (configure _ true w) as [[] w1]; cbn [fst snd] in *; [|done].
  by apply subscribe_fresh.
Qed.
End Fresh.

(** C7.  [subscribe] with a rate first runs the rate command, one [configure]
    that waits for the acknowledgment, and at most one frame goes to the
    transport.  When the command fails, the default-constructed iterator is
    returned and the registry has the nodes it had.  When it succeeds, the
    command was acknowledged, exactly one frame (the rate command) was sent,
    and only after the wait is the persistent handler inserted under the
    identity of [T]; its iterator is returned. *)
Theorem subscribe_rate_after_ack `{Codec} (T : Type) `{UbloxMessage T}
    (callback : nat) (rate : Z) (w : World) :
  let cmd := setRate (CLASS_ID T) (MESSAGE_ID T) rate w in
  let r := subscribe_rate T callback rate w in
  let key := (CLASS_ID T, MESSAGE_ID T) in
  (cmd.1 = false →
     r = (None, cmd.2) ∧
     registered (gps r.2) = registered (gps w) ∧
     next_node r.2 = next_node w) ∧
  (cmd.1 = true →
     r.1 = Some (next_node w) ∧
     callbacks_ (gps r.2) !! next_node w = Some (key, Persistent callback []) ∧
     acknowledge_ (gps cmd.2) = ACK ∧
     ∃ out,
       Writer_write kWriterSize (mkRateCmd (CLASS_ID T) (MESSAGE_ID T) rate) = Some out ∧
       trace r.2 = trace w ++ [EvAckReset; EvSend out; EvWaitAck default_timeout_;
                               EvInsert (next_node w) key]) ∧
  (length (sends (trace r.2)) ≤ S (length (sends (trace w))))%nat.
Proof.
  cbv zeta. rewrite subscribe_rate_run. cbv zeta. unfold setRate.
  set (message := mkRateCmd _ _ _).
  pose proof (configure_keeps message true w) as (Hreg & Hn & Hlen).
  pose proof (configure_acknowledged message w) as Hack. cbv zeta in Hack.
  destruct (configure message true w) as [ok w1] eqn:Hcfg. cbn [fst snd] in *.
  destruct ok.
  - split; [done|]. split.
    + intros _. destruct (Hack eq_refl) as (Ha & out & Hser & Htr).
      unfold subscribe, callbacks_insert, mbind, M_bind, mret, M_ret.
      cbn [fst snd gps trace callbacks_ set_callbacks]. rewrite Hn.
      split; [done|]. split; [apply lookup_insert_eq|]. split; [done|].
      exists out. split; [done|]. rewrite Htr, <- app_assoc. reflexivity.
    + unfold subscribe, callbacks_insert, mbind, M_bind, mret, M_ret.
      cbn [snd trace]. rewrite sends_app. cbn. rewrite app_nil_r. exact Hlen.
  - split; [|split; [done|exact Hlen]]. intros _. by repeat split.
Qed.

Lemma subscribe_rate_after_ack_witness :
  let nacked := subscribe_rate CfgRATE 7 4 (world (gps_init WAIT) [[]; [nack_frame]]) in
  let acked := subscribe_rate CfgRATE 7 4 (world (gps_init WAIT) [[]; [ack_frame]]) in
  (nacked.1 = None ∧ registered (gps nacked.2) = ∅) ∧
  (acked.1 = Some 0%nat ∧
   callbacks_ (gps acked.2) !! 0%nat = Some ((6, 8), Persistent 7 [])).
Proof.
  assert (Hnack : (setRate (CLASS_ID CfgRATE) (MESSAGE_ID CfgRATE) 4
                     (world (gps_init WAIT) [[]; [nack_frame]])).1 = false)
    by (vm_compute; reflexivity).
  assert (Hack : (setRate (CLASS_ID CfgRATE) (MESSAGE_ID CfgRATE) 4
                    (world (gps_init WAIT) [[]; [ack_frame]])).1 = true)
    by (vm_compute; reflexivity).
  pose proof (proj1 (subscribe_rate_after_ack CfgRATE 7 4
                       (world (gps_init WAIT) [[]; [nack_frame]])) Hnack)
    as (Hr & Hreg & _).
  pose proof (proj1 (proj2 (subscribe_rate_after_ack CfgRATE 7 4
                              (world (gps_init WAIT) [[]; [ack_frame]]))) Hack)
    as (Hr' & Hcb & _).
  split; split.
  - exact (f_equal fst Hr).
  - exact Hreg.
  - exact Hr'.
  - exact Hcb.
Defined.

(** ** initialize *)

(** C9.  The stream-based [initialize] on a driver that has a worker returns
    the world as it is, so a second call after one that left a worker is a
    no-op; and whatever the driver, its result does not depend on
    [baudrate], [uart_in] or [uart_out]. *)
Theorem initialize_idempotent {StreamT IoService : Type}
    (AsyncWorker : StreamT → IoService → Worker) (initialize_worker : Worker → M unit)
    (stream : StreamT) (io_service : IoService) (baudrate uart_in uart_out : Z)
    (w : World) :
  (isInitialized (gps w) = true →
     initialize AsyncWorker initialize_worker stream io_service
                baudrate uart_in uart_out w = (tt, w)) ∧
  (∀ baudrate' uart_in' uart_out',
     initialize AsyncWorker initialize_worker stream io_service
                baudrate' uart_in' uart_out' w =
     initialize AsyncWorker initialize_worker stream io_service
                baudrate uart_in uart_out w) ∧
  (let w1 := (initialize AsyncWorker initialize_worker stream io_service
                         baudrate uart_in uart_out w).2 in
   isInitialized (gps w1) = true →
   ∀ stream' io_service' baudrate' uart_in' uart_out',
     initialize AsyncWorker initialize_worker stream' io_service'
                baudrate' uart_in' uart_out' w1 = (tt, w1)).
Proof.
  assert (Hnoop : ∀ (s : StreamT) (io : IoService) b ui uo w0,
            isInitialized (gps w0) = true →
            initialize AsyncWorker initialize_worker s io b ui uo w0 = (tt, w0)).
  { intros s io b ui uo w0. unfold isInitialized, initialize.
    unfold mbind, M_bind, get_gps.
    destruct (worker_ (gps w0)); [reflexivity | discriminate]. }
  split; [apply Hnoop|]. split; [reflexivity|].
  cbv zeta. intros Hinit s io b ui uo. by apply Hnoop.
Qed.

Lemma initialize_idempotent_witness :
  let w1 := (initialize stream_worker adopt 3%nat tt 9600 1 1 (world gps_uninit [])).2 in
  worker_ (gps w1) = Some (mkWorker true) ∧
  initialize stream_worker adopt 0%nat tt 115200 7 7 w1 = (tt, w1).
Proof.
  split; [reflexivity|].
  exact (proj2 (proj2 (initialize_idempotent stream_worker adopt 3%nat tt 9600 1 1
                         (world gps_uninit []))) eq_refl 0%nat tt 115200 7 7).
Defined.

(** ** isOpen *)

(** C10.  [isOpen] has a value exactly on the drivers on which
    [isInitialized] returns true; on a driver without worker it is the
    dereference of a null pointer, while [isInitialized] and [isConfigured]
    both return false there; and [isConfigured] implies [isInitialized]. *)
Theorem isOpen_needs_initialized (g : Gps) :
  (is_Some (isOpen g) ↔ isInitialized g = true) ∧
  (worker_ g = None →
     isOpen g = None ∧ isInitialized g = false ∧ isConfigured g = false) ∧
  (isConfigured g = true → isInitialized g = true).
Proof.
  unfold isOpen, isConfigured, isInitialized.
  destruct (worker_ g) as [wk|]; cbn.
  - split; [split; [done | by eexists]|]. split; [discriminate | done].
  - split; [split; [by intros [? ?] | discriminate]|]. by split.
Qed.

Lemma isOpen_needs_initialized_witness :
  isOpen gps_uninit = None ∧ isInitialized gps_uninit = false ∧
  isOpen (gps_init WAIT) = Some true ∧ isInitialized (gps_init WAIT) = true.
Proof.
  destruct (proj1 (proj2 (isOpen_needs_initialized gps_uninit)) eq_refl) as (Ho & Hi & _).
  split; [exact Ho|]. split; [exact Hi|]. split; [reflexivity|].
  exact (proj2 (proj2 (isOpen_needs_initialized (gps_init WAIT))) eq_refl).
Defined.

(** * Further properties of the command layer *)

(** ** What the I/O thread preserves while a caller is blocked *)

Section Blocked.
Context `{Codec}.
Variable R : Gps → Gps → Prop.
Hypothesis R_refl : ∀ g, R g g.
Hypothesis R_trans : ∀ g1 g2 g3, R g1 g2 → R g2 g3 → R g1 g3.
Hypothesis R_dispatch : ∀ g f, R g (dispatch g f).

Lemma readCallback_rel frames g : R g (readCallback frames g).
Proof.
  unfold readCallback. revert g.
  induction frames as [|f frames IH]; intros g; simpl; [apply R_refl|].
  eapply R_trans; [apply R_dispatch | apply IH].
Qed.

Lemma tick_rel w : R (gps w) (gps (tick w)).
Proof. apply readCallback_rel. Qed.

Lemma wait_loop_rel it timeout w : R (gps w) (gps (wait_loop it timeout w).2).
Proof.
  revert w. induction timeout as [|t IH]; intros w; simpl;
    destruct (handler_ready it (gps w)); simpl; try apply R_refl.
  eapply R_trans; [apply tick_rel | apply IH].
Qed.

Lemma ack_loop_rel timeout w : R (gps w) (gps (ack_loop timeout w).2).
Proof.
  revert w. induction timeout as [|t IH]; intros w; simpl;
    destruct (acknowledge_ (gps w)); simpl; try apply R_refl.
  eapply R_trans; [apply tick_rel | apply IH].
Qed.

Lemma waitForAcknowledge_rel timeout w :
  R (gps w) (gps (waitForAcknowledge timeout w).2).
Proof.
  unfold waitForAcknowledge, mbind, M_bind, emit. cbn beta iota.
  exact (ack_loop_rel timeout (mkWorld (gps w) _ _ _ _)).
Qed.
End Blocked.

Section Device.
Context `{Codec}.

Lemma same_device_refl g : same_device g g.
Proof. by repeat split. Qed.

Lemma same_device_trans g1 g2 g3 :
  same_device g1 g2 → same_device g2 g3 → same_device g1 g3.
Proof. intros (?&?&?&?&?) (?&?&?&?&?). repeat split; congruence. Qed.

Lemma same_device_dispatch g f : same_device g (dispatch g f).
Proof. unfold dispatch. repeat case_bool_decide; by repeat split. Qed.

Lemma same_device_initialized g g' :
  same_device g g' →
  isInitialized g' = isInitialized g ∧ isConfigured g' = isConfigured g ∧
  isOpen g' = isOpen g.
Proof.
  intros (Hw & Hc & _). unfold isConfigured, isInitialized, isOpen.
  by rewrite Hw, Hc.
Qed.

Lemma configure_device {ConfigT} `{UbloxMessage ConfigT} (message : ConfigT) wait w :
  same_device (gps w) (gps (configure message wait w).2).
Proof.
  destruct (worker_ (gps w)) as [wk|] eqn:Hw;
    [|rewrite (configure_uninitialized message wait w Hw); apply same_device_refl].
  destruct (Writer_write kWriterSize message) as [out|] eqn:Hser;
    [|rewrite (configure_failed message wait w wk Hw Hser); by repeat split].
  rewrite (configure_sent message wait w wk out Hw Hser). cbv zeta.
  destruct wait; cbn [snd gps]; [|by repeat split].
  set (sent := mkWorld _ _ _ _ _).
  apply same_device_trans with (gps sent); [by repeat split|].
  apply (waitForAcknowledge_rel same_device same_device_refl same_device_trans
           same_device_dispatch).
Qed.

Lemma read_device {T} `{UbloxMessage T} (message : T) timeout w :
  same_device (gps w) (gps (read message timeout w).2).
Proof.
  destruct (worker_ (gps w)) as [wk|] eqn:Hw;
    [|rewrite (read_uninitialized message timeout w Hw); apply same_device_refl].
  rewrite (read_run message timeout w wk Hw). cbv zeta.
  set (inserted := mkWorld _ _ _ _ _).
  pose proof (wait_loop_rel same_device same_device_refl same_device_trans
                same_device_dispatch (next_node w) timeout inserted) as Hwait.
  cbn [snd gps]. destruct Hwait as (?&?&?&?&?). by repeat split.
Qed.

Lemma poll_device {ConfigT} `{UbloxMessage ConfigT} (message : ConfigT) timeout w :
  same_device (gps w) (gps (poll message timeout w).2).
Proof.
  rewrite poll_run. cbv zeta. rewrite poll_id_run.
  destruct (worker_ (gps w)); [|apply same_device_refl].
  destruct (Writer_write_raw _ _ _ _); [|apply same_device_refl].
  cbn [fst snd]. set (sent := mkWorld _ _ _ _ _).
  exact (read_device message timeout sent).
Qed.

Lemma subscribe_device (T : Type) `{UbloxMessage T} callback w :
  same_device (gps w) (gps (subscribe T callback w).2).
Proof. by repeat split. Qed.

Lemma subscribe_rate_device (T : Type) `{UbloxMessage T} callback rate w :
  same_device (gps w) (gps (subscribe_rate T callback rate w).2).
Proof.
  rewrite subscribe_rate_run. cbv zeta. unfold setRate.
  pose proof (configure_device (mkRateCmd (CLASS_ID T) (MESSAGE_ID T) rate) true w) as Hc.
  destruct (configure _ true w) as [[] w1]; cbn [fst snd] in *; [|done].
  eapply same_device_trans; [exact Hc | apply subscribe_device].
Qed.
End Device.

(** X1.  No call of the command layer assigns [worker_], [configured_],
    [baudrate_], [uart_in_] or [uart_out_], whatever its outcome and whatever
    arrives while it waits: after [configure], [read], [poll] and both
    [subscribe]s the driver is initialized, configured and open exactly as it
    was before. *)
Theorem command_layer_keeps_device `{Codec} {T} `{UbloxMessage T}
    (message : T) (wait : bool) (timeout : nat) (callback : nat) (rate : Z)
    (w w' : World) :
  w' = (configure message wait w).2 ∨
  w' = (read message timeout w).2 ∨
  w' = (poll message timeout w).2 ∨
  w' = (subscribe T callback w).2 ∨
  w' = (subscribe_rate T callback rate w).2 →
  same_device (gps w) (gps w') ∧
  isInitialized (gps w') = isInitialized (gps w) ∧
  isConfigured (gps w') = isConfigured (gps w) ∧
  isOpen (gps w') = isOpen (gps w).
Proof.
  intros Hop.
  assert (Hdev : same_device (gps w) (gps w')).
  { destruct Hop as [->|[->|[->|[->| ->]]]].
    - apply configure_device.
    - apply read_device.
    - apply poll_device.
    - apply subscribe_device.
    - apply subscribe_rate_device. }
  split; [exact Hdev | by apply same_device_initialized].
Qed.

Lemma command_layer_keeps_device_witness :
  let w' := (configure rate_1Hz true (world (gps_init ACK) [[nack_frame]])).2 in
  isInitialized (gps w') = true ∧ isConfigured (gps w') = true ∧
  isOpen (gps w') = Some true.
Proof.
  exact (proj2 (command_layer_keeps_device rate_1Hz true 0 0 0
                  (world (gps_init ACK) [[nack_frame]]) _ (or_introl eq_refl))).
Defined.

(** ** Subscriptions survive *)

Section Subscriptions.
Context `{Codec}.

Lemma keeps_subscriptions_refl g : keeps_subscriptions g g.
Proof. intros it key sink d Hl. exists []. by rewrite app_nil_r. Qed.

Lemma keeps_subscriptions_trans g1 g2 g3 :
  keeps_subscriptions g1 g2 → keeps_subscriptions g2 g3 → keeps_subscriptions g1 g3.
Proof.
  intros H12 H23 it key sink d Hl.
  destruct (H12 _ _ _ _ Hl) as [m1 Hl2].
  destruct (H23 _ _ _ _ Hl2) as [m2 Hl3].
  exists (m1 ++ m2). by rewrite app_assoc.
Qed.

Lemma dispatch_callbacks g f :
  callbacks_ (dispatch g f) = deliver f <$> callbacks_ g.
Proof. unfold dispatch. repeat case_bool_decide; reflexivity. Qed.

Lemma keeps_subscriptions_dispatch g f : keeps_subscriptions g (dispatch g f).
Proof.
  intros it key sink d Hl. rewrite dispatch_callbacks, lookup_fmap, Hl.
  unfold deliver. cbn. case_bool_decide.
  - by exists [fr_payload f].
  - exists []. by rewrite app_nil_r.
Qed.

Lemma keeps_subscriptions_set_acknowledge a g :
  keeps_subscriptions g (set_acknowledge a g).
Proof. intros it key sink d Hl. exists []. cbn. by rewrite app_nil_r. Qed.

Lemma keeps_subscriptions_insert it key h g :
  callbacks_ g !! it = None →
  keeps_subscriptions g (set_callbacks (<[it := (key, h)]> (callbacks_ g)) g).
Proof.
  intros Hfresh it' key' sink d Hl. exists []. rewrite app_nil_r. cbn.
  rewrite lookup_insert_ne; [done|]. intros ->. congruence.
Qed.

Lemma configure_subscriptions {ConfigT} `{UbloxMessage ConfigT}
    (message : ConfigT) wait w :
  keeps_subscriptions (gps w) (gps (configure message wait w).2).
Proof.
  destruct (worker_ (gps w)) as [wk|] eqn:Hw;
    [|rewrite (configure_uninitialized message wait w Hw);
      apply keeps_subscriptions_refl].
  destruct (Writer_write kWriterSize message) as [out|] eqn:Hser;
    [|rewrite (configure_failed message wait w wk Hw Hser);
      apply keeps_subscriptions_set_acknowledge].
  rewrite (configure_sent message wait w wk out Hw Hser). cbv zeta.
  destruct wait; cbn [snd gps]; [|apply keeps_subscriptions_set_acknowledge].
  set (sent := mkWorld _ _ _ _ _).
  apply keeps_subscriptions_trans with (gps sent);
    [apply keeps_subscriptions_set_acknowledge|].
  apply (waitForAcknowledge_rel keeps_subscriptions keeps_subscriptions_refl
           keeps_subscriptions_trans keeps_subscriptions_dispatch).
Qed.

Lemma read_subscriptions {T} `{UbloxMessage T} (message : T) timeout w :
  fresh_nodes w →
  keeps_subscriptions (gps w) (gps (read message timeout w).2).
Proof.
  intros Hf.
  destruct (worker_ (gps w)) as [wk|] eqn:Hw;
    [|rewrite (read_uninitialized message timeout w Hw);
      apply keeps_subscriptions_refl].
  assert (Hfresh : callbacks_ (gps w) !! next_node w = None) by by apply Hf.
  rewrite (read_run message timeout w wk Hw). cbv zeta.
  set (inserted := mkWorld _ _ _ _ _).
  pose proof (wait_loop_rel keeps_subscriptions keeps_subscriptions_refl
                keeps_subscriptions_trans keeps_subscriptions_dispatch
                (next_node w) timeout inserted) as Hwait.
  pose proof (keeps_subscriptions_insert (next_node w)
                (CLASS_ID T, MESSAGE_ID T) (OneShot None) (gps w) Hfresh) as Hins.
  intros it key sink d Hl.
  destruct (keeps_subscriptions_trans _ _ _ Hins Hwait it key sink d Hl) as [more Hm].
  exists more. cbn [snd gps callbacks_ set_callbacks].
  rewrite lookup_delete_ne; [exact Hm|]. intros <-. congruence.
Qed.

Lemma poll_subscriptions {ConfigT} `{UbloxMessage ConfigT}
    (message : ConfigT) timeout w :
  fresh_nodes w →
  keeps_subscriptions (gps w) (gps (poll message timeout w).2).
Proof.
  intros Hf. rewrite poll_run. cbv zeta. rewrite poll_id_run.
  destruct (worker_ (gps w)); [|apply keeps_subscriptions_refl].
  destruct (Writer_write_raw _ _ _ _); [|apply keeps_subscriptions_refl].
  cbn [fst snd]. set (sent := mkWorld _ _ _ _ _).
  exact (read_subscriptions message timeout sent Hf).
Qed.

Lemma subscribe_subscriptions (T : Type) `{UbloxMessage T} callback w :
  fresh_nodes w →
  keeps_subscriptions (gps w) (gps (subscribe T callback w).2).
Proof.
  intros Hf. unfold subscribe, callbacks_insert, mbind, M_bind, mret, M_ret.
  cbn [snd gps]. apply keeps_subscriptions_insert. by apply Hf.
Qed.

Lemma subscribe_rate_subscriptions (T : Type) `{UbloxMessage T} callback rate w :
  fresh_nodes w →
  keeps_subscriptions (gps w) (gps (subscribe_rate T callback rate w).2).
Proof.
  intros Hf. rewrite subscribe_rate_run. cbv zeta. unfold setRate.
  set (message := mkRateCmd _ _ _).
  pose proof (configure_subscriptions message true w) as Hc.
  pose proof (configure_fresh message true w Hf) as Hf'.
  destruct (configure message true w) as [[] w1]; cbn [fst snd] in *; [|done].
  eapply keeps_subscriptions_trans; [exact Hc | by apply subscribe_subscriptions].
Qed.
End Subscriptions.

(** X2.  A persistent handler, once registered, survives every later call of
    the command layer: after [configure], [read], [poll] and both
    [subscribe]s it is still in its node, under its identity and with its
    sink, and the sink has kept everything it had received.  In particular
    the removal at the end of [read] removes only the handler that [read]
    inserted, also when both are registered for the same message type. *)
Theorem command_layer_keeps_subscriptions `{Codec} {T} `{UbloxMessage T}
    (message : T) (wait : bool) (timeout : nat) (callback : nat) (rate : Z)
    (w w' : World) :
  fresh_nodes w →
  w' = (configure message wait w).2 ∨
  w' = (read message timeout w).2 ∨
  w' = (poll message timeout w).2 ∨
  w' = (subscribe T callback w).2 ∨
  w' = (subscribe_rate T callback rate w).2 →
  keeps_subscriptions (gps w) (gps w') ∧ fresh_nodes w'.
Proof.
  intros Hf [->|[->|[->|[->| ->]]]]; split.
  - apply configure_subscriptions.
  - by apply configure_fresh.
  - by apply read_subscriptions.
  - by apply read_fresh.
  - by apply poll_subscriptions.
  - by apply poll_fresh.
  - by apply subscribe_subscriptions.
  - by apply subscribe_fresh.
  - by apply subscribe_rate_subscriptions.
  - by apply subscribe_rate_fresh.
Qed.

Lemma world_subscribed_fresh traffic : fresh_nodes (world_subscribed traffic).
Proof.
  intros it Hle. cbn in *. apply lookup_singleton_ne. lia.
Defined.

Lemma command_layer_keeps_subscriptions_witness :
  let r := read rate_1Hz 5 (world_subscribed [[]; [rate_frame]]) in
  r.1.1 = true ∧
  ∃ more, callbacks_ (gps r.2) !! 0%nat = Some ((6, 8), Persistent 7 ([] ++ more)).
Proof.
  split; [vm_compute; reflexivity|].
  exact (proj1 (command_layer_keeps_subscriptions rate_1Hz true 5 0 0
                  (world_subscribed [[]; [rate_frame]]) _
                  (world_subscribed_fresh _) (or_intror (or_introl eq_refl)))
               0%nat (6, 8) 7%nat [] eq_refl).
Defined.

(** ** What read returns *)

Section ReadResult.
Context `{Codec}.









Lemma read_now {T} `{UbloxMessage T} (message : T) timeout w :
  let r := read message timeout w in
  (now w ≤ now r.2 ≤ now w + timeout)%nat ∧
  (r.1.1 = false → isInitialized (gps w) = true → now r.2 = (now w + timeout)%nat) ∧
  (r.1.1 = false → r.1.2 = message).
Proof.
  cbv zeta. unfold isInitialized.
  destruct (worker_ (gps w)) as [wk|] eqn:Hw;
    [|rewrite (read_uninitialized message timeout w Hw); cbn; repeat split; done || lia].
  rewrite (read_run message timeout w wk Hw). cbv zeta.
  set (inserted := mkWorld _ _ _ _ _).
  destruct (wait_loop_spec (next_node w) timeout inserted) as (_ & Hnow & _ & Hto).
  change (now inserted) with (now w) in *. cbn [fst snd now].
  destruct (wait_loop (next_node w) timeout inserted).1; cbn [fst snd].
  - split; [lia|]. split; discriminate.
  - split; [lia|]. split; [intros _ _; by apply Hto | done].
Qed.
End ReadResult.



(** X4.  [read] never blocks longer than its timeout; when it fails, the
    out-parameter is left as the caller passed it, and on an initialized
    driver a failure is reported only after the whole timeout has elapsed
    (on a driver without worker, at once: see C8). *)
Theorem read_blocks_at_most_timeout `{Codec} {T} `{UbloxMessage T}
    (message : T) (timeout : nat) (w : World) :
  let r := read message timeout w in
  (now w ≤ now r.2 ≤ now w + timeout)%nat ∧
  (r.1.1 = false → isInitialized (gps w) = true → now r.2 = (now w + timeout)%nat) ∧
  (r.1.1 = false → r.1.2 = message).
Proof. apply read_now. Qed.

Lemma read_blocks_at_most_timeout_witness :
  let r := read rate_1Hz 3 (world (gps_init WAIT) [[ack_frame]]) in
  now r.2 = 3%nat ∧ r.1.2 = rate_1Hz.
Proof.
  destruct (read_blocks_at_most_timeout rate_1Hz 3 (world (gps_init WAIT) [[ack_frame]]))
    as (_ & Hto & Hmsg).
  assert (Hfail : (read rate_1Hz 3 (world (gps_init WAIT) [[ack_frame]])).1.1 = false)
    by (vm_compute; reflexivity).
  split; [exact (Hto Hfail eq_refl) | exact (Hmsg Hfail)].
Defined.

(** ** Subscribing and polling *)

(** X5.  The plain [subscribe] checks nothing: with or without worker it
    inserts the persistent handler under the identity of its message type and
    returns the iterator of the new node, sends nothing and takes no time.  A
    second subscription gets another node and leaves the first one in place,
    also when both are for the same message type. *)
Theorem subscribe_keeps_both `{Codec} (T1 T2 : Type)
    `{UbloxMessage T1} `{UbloxMessage T2} (callback1 callback2 : nat) (w : World) :
  let r1 := subscribe T1 callback1 w in
  let r2 := subscribe T2 callback2 r1.2 in
  let it := next_node w in
  r1.1 = Some it ∧ r2.1 = Some (S it) ∧
  callbacks_ (gps r2.2) !! it = Some ((CLASS_ID T1, MESSAGE_ID T1), Persistent callback1 []) ∧
  callbacks_ (gps r2.2) !! S it = Some ((CLASS_ID T2, MESSAGE_ID T2), Persistent callback2 []) ∧
  (∀ it', it' ≠ it → it' ≠ S it →
     callbacks_ (gps r2.2) !! it' = callbacks_ (gps w) !! it') ∧
  now r2.2 = now w ∧
  sends (trace r2.2) = sends (trace w).
Proof.
  cbv zeta. unfold subscribe, callbacks_insert, mbind, M_bind, mret, M_ret.
  cbn [fst snd gps next_node now trace callbacks_ set_callbacks].
  split; [done|]. split; [done|]. split.
  { rewrite lookup_insert_ne by lia. apply lookup_insert_eq. }
  split; [apply lookup_insert_eq|]. split.
  { intros it' Hne Hne'. by rewrite !lookup_insert_ne. }
  split; [done|]. rewrite !sends_app. cbn. by rewrite !app_nil_r.
Qed.

Lemma subscribe_keeps_both_witness :
  let r1 := subscribe CfgRATE 7 (world gps_uninit []) in
  let r2 := subscribe CfgRATE 8 r1.2 in
  callbacks_ (gps r2.2) !! 0%nat = Some ((6, 8), Persistent 7 []) ∧
  callbacks_ (gps r2.2) !! 1%nat = Some ((6, 8), Persistent 8 []).
Proof.
  destruct (subscribe_keeps_both CfgRATE CfgRATE 7 8 (world gps_uninit []))
    as (_ & _ & Hfirst & Hsecond & _).
  exact (conj Hfirst Hsecond).
Defined.



(** X7.  [configure] never inserts or erases a handler and hands at most one
    frame to the transport.  Called without waiting on an initialized driver,
    it takes no time and changes nothing of the driver but the tracker, which
    it leaves at WAIT whether or not the message serialized. *)
Theorem configure_leaves_registry `{Codec} {ConfigT} `{UbloxMessage ConfigT}
    (message : ConfigT) (wait : bool) (w : World) :
  let r := configure message wait w in
  registered (gps r.2) = registered (gps w) ∧
  next_node r.2 = next_node w ∧
  (length (sends (trace r.2)) ≤ S (length (sends (trace w))))%nat ∧
  (wait = false → isInitialized (gps w) = true →
     gps r.2 = set_acknowledge WAIT (gps w) ∧
     now r.2 = now w ∧ inbound r.2 = inbound w).
Proof.
  cbv zeta. destruct (configure_keeps message wait w) as (Hreg & Hn & Hlen).
  split; [exact Hreg|]. split; [exact Hn|]. split; [exact Hlen|].
  unfold isInitialized. intros -> Hinit.
  destruct (worker_ (gps w)) as [wk|] eqn:Hw; [|discriminate].
  destruct (Writer_write kWriterSize message) as [out|] eqn:Hser.
  - by rewrite (configure_sent message false w wk out Hw Hser).
  - by rewrite (configure_failed message false w wk Hw Hser).
Qed.

Lemma configure_leaves_registry_witness :
  let r := configure rate_1Hz false (world_subscribed [[ack_frame]]) in
  gps r.2 = set_acknowledge WAIT gps_subscribed ∧ now r.2 = 0%nat.
Proof.
  destruct (configure_leaves_registry rate_1Hz false (world_subscribed [[ack_frame]]))
    as (_ & _ & _ & Hnowait).
  destruct (Hnowait eq_refl eq_refl) as (Hg & Hnow & _).
  exact (conj Hg Hnow).
Defined.
